(** * koshkina: the lightbox and theme-toggle scripts

    A shallow embedding of [static/js/theme.js] and [static/js/lightbox.js].

    Both scripts are a [DOMContentLoaded] handler that looks up a few
    elements, defines two or three closures over them and registers event
    listeners.  The embedding keeps that shape: the part of the document a
    script touches is a record, every closure of the script is a definition
    of the same name, and a listener runs only once it has been registered.

    - [Js] is the small state-and-exception monad in which the statements
      of [theme.js] are written ([try]/[catch] needs abrupt completions).
    - [Theme] embeds [theme.js].
    - [Lightbox] embeds [lightbox.js]; nothing there can throw, so its
      closures are plain state transformers. *)

From stdpp Require Import gmap strings.

(** ** Statements with abrupt completion *)

Module Js.

(** How a statement completes: normally with a value, or by throwing. *)
Inductive completion (A : Type) : Type :=
| Normal (a : A)
| Throw.
Arguments Normal {A} a.
Arguments Throw {A}.

(** A statement transforms the state and completes.  A statement that
    throws keeps the mutations done before the throw. *)
Definition M (S A : Type) : Type := S → completion A * S.

Definition ret {S A} (a : A) : M S A := λ s, (Normal a, s).

Definition bind {S A B} (m : M S A) (k : A → M S B) : M S B :=
  λ s, match m s with
       | (Normal a, s') => k a s'
       | (Throw, s') => (Throw, s')
       end.

Definition throw {S A} : M S A := λ s, (Throw, s).

Definition get {S} : M S S := λ s, (Normal s, s).

Definition modify {S} (f : S → S) : M S unit := λ s, (Normal tt, f s).

(** [try { body } catch (e) { handler }] *)
Definition try_catch {S A} (body handler : M S A) : M S A :=
  λ s, match body s with
       | (Normal a, s') => (Normal a, s')
       | (Throw, s') => handler s'
       end.

(** The state a statement leaves behind, and whether it returned. *)
Definition exec {S A} (m : M S A) (s : S) : S := (m s).2.

Definition returns {S A} (m : M S A) (s : S) : Prop :=
  ∃ a, (m s).1 = Normal a.

(** The statements are written with stdpp's monad notations
    ([x ← m; k] and [m;; k]). *)
#[global] Instance M_ret {S} : MRet (M S) := λ A, @ret S A.
#[global] Instance M_bind {S} : MBind (M S) := λ A B k m, @bind S A B m k.

End Js.

(** ** theme.js *)

Module Theme.
Import Js.

(** [window.localStorage].  [items] is the key-value content.  An access
    can throw: [readable = false] is a store whose [getItem] (or the
    [localStorage] getter itself) throws, [writable = false] one whose
    [setItem] throws.  Both are fixed for the session of a page. *)
Record Storage : Type := mkStorage {
  items : gmap string string;
  readable : bool;
  writable : bool
}.

(** The part of the page the script touches.
    - [body_classList]: [document.body.classList];
    - [icon]: [textContent] of [#themeToggleIcon], [None] when
      [getElementById] finds no such element;
    - [toggle]: [None] when there is no [#themeToggle]; otherwise
      [Some b], [b] telling whether the script's click listener has been
      registered on it. *)
Record Page : Type := mkPage {
  body_classList : gset string;
  icon : option string;
  toggle : option bool;
  localStorage : Storage
}.

Definition theme_key : string := "koshkina-theme".
Definition dark_theme : string := "dark-theme".
Definition moon : string := "🌙".
Definition sun : string := "☀️".

(** *** The primitives the script calls *)

Definition classList_add (c : string) : M Page unit :=
  modify (λ p, mkPage ({[c]} ∪ body_classList p) (icon p) (toggle p)
                      (localStorage p)).

Definition classList_remove (c : string) : M Page unit :=
  modify (λ p, mkPage (body_classList p ∖ {[c]}) (icon p) (toggle p)
                      (localStorage p)).

Definition classList_contains (c : string) : M Page bool :=
  p ← get; mret (bool_decide (c ∈ body_classList p)).

(** [if (icon) { icon.textContent = g; }] *)
Definition icon_set_textContent (g : string) : M Page unit :=
  modify (λ p, mkPage (body_classList p) ((λ _, g) <$> icon p) (toggle p)
                      (localStorage p)).

Definition getItem (k : string) : M Page (option string) :=
  p ← get;
  if readable (localStorage p) then mret (items (localStorage p) !! k)
  else throw.

Definition setItem (k v : string) : M Page unit :=
  p ← get;
  if writable (localStorage p)
  then modify (λ p, mkPage (body_classList p) (icon p) (toggle p)
                 (mkStorage (<[k := v]> (items (localStorage p)))
                            (readable (localStorage p))
                            (writable (localStorage p))))
  else throw.

(** [if (toggle) { toggle.addEventListener("click", ...); }] *)
Definition with_listener (p : Page) : Page :=
  mkPage (body_classList p) (icon p) ((λ _, true) <$> toggle p)
         (localStorage p).

Definition toggle_addEventListener : M Page unit := modify with_listener.

(** *** The closures of the script *)

(** [function applyTheme(theme)], lines 6-22. *)
Definition applyTheme (theme : string) : M Page unit :=
  (if bool_decide (theme = "dark")
   then classList_add dark_theme
   else classList_remove dark_theme);;
  icon_set_textContent (if bool_decide (theme = "dark") then moon else sun);;
  try_catch (setItem theme_key theme) (mret tt).

(** Lines 24-29: [savedTheme], [null] when the read throws. *)
Definition read_savedTheme : M Page (option string) :=
  try_catch (getItem theme_key) (mret None).

(** The click listener of the toggle, lines 38-41. *)
Definition toggle_onclick : M Page unit :=
  isDark ← classList_contains dark_theme;
  applyTheme (if isDark : bool then "light" else "dark").

(** The [DOMContentLoaded] handler, lines 1-43.  [savedTheme] is [null]
    ([None]) or a string; in the first branch it is a string, which is
    what [default] extracts. *)
Definition DOMContentLoaded : M Page unit :=
  savedTheme ← read_savedTheme;
  (if bool_decide (savedTheme = Some "dark")
      || bool_decide (savedTheme = Some "light")
   then applyTheme (default "" savedTheme)
   else applyTheme "light");;
  toggle_addEventListener.

(** A click on the toggle button runs the listener when there is one. *)
Definition click_toggle : M Page unit :=
  p ← get;
  match toggle p with
  | Some true => toggle_onclick
  | _ => mret tt
  end.

(** The page after the load handler, and after [n] more clicks. *)
Definition loaded (p : Page) : Page := exec DOMContentLoaded p.

Fixpoint clicks (n : nat) (p : Page) : Page :=
  match n with
  | 0 => p
  | S n' => exec click_toggle (clicks n' p)
  end.

(** *** Observations *)

Definition stored (p : Page) : option string :=
  items (localStorage p) !! theme_key.

Definition is_dark (p : Page) : bool :=
  bool_decide (dark_theme ∈ body_classList p).

Definition glyph (dark : bool) : string := if dark then moon else sun.
Definition theme_name (dark : bool) : string :=
  if dark then "dark" else "light".

(** What lines 24-29 leave in [savedTheme]. *)
Definition savedTheme (p : Page) : option string :=
  if readable (localStorage p) then stored p else None.

(** Whether the load handler applies the dark theme. *)
Definition saved_dark (p : Page) : bool :=
  bool_decide (savedTheme p = Some "dark").

(** The storage after the [try]/[catch] around [setItem(k, v)]. *)
Definition written (k v : string) (st : Storage) : Storage :=
  if writable st
  then mkStorage (<[k := v]> (items st)) (readable st) (writable st)
  else st.

(** The class, the glyph and the stored value agree with each other. *)
Definition consistent (p : Page) : Prop :=
  icon p = (λ _, glyph (is_dark p)) <$> icon p ∧
  (writable (localStorage p) = true →
   stored p = Some (theme_name (is_dark p))).

(** The page after the three steps of [applyTheme]: the class set for
    [d], the glyph of [d], and [v] written under the key when the store
    takes it. *)
Definition applied (d : bool) (v : string) (p : Page) : Page :=
  mkPage (if d then {[dark_theme]} ∪ body_classList p
          else body_classList p ∖ {[dark_theme]})
         ((λ _, glyph d) <$> icon p)
         (toggle p)
         (written theme_key v (localStorage p)).

(** The same page over another storage. *)
Definition with_storage (p : Page) (st : Storage) : Page :=
  mkPage (body_classList p) (icon p) (toggle p) st.

(** A first visit: nothing stored, a working store, the markup's own
    icon text, the toggle not yet wired. *)
Definition first_visit : Page :=
  mkPage ∅ (Some "") (Some false) (mkStorage ∅ true true).

(** A returning visitor who had chosen the dark theme. *)
Definition dark_visit : Page :=
  mkPage {["page"]} (Some "") (Some false)
         (mkStorage {[theme_key := "dark"]} true true).

(** A visit with the storage blocked. *)
Definition blocked_visit : Page :=
  mkPage ∅ (Some "") (Some false)
         (mkStorage {[theme_key := "dark"]} false false).

(** What the user sees of the theme: the classes of the body and the
    text of the icon. *)
Definition shown (p : Page) : gset string * option string :=
  (body_classList p, icon p).

(** What is shown once the theme [d] (dark or light) is applied to [p]:
    the dark-theme class added or removed, the other classes as they
    were, and the moon or the sun in the icon when there is one. *)
Definition themed (d : bool) (p : Page) : gset string * option string :=
  (if d then {[dark_theme]} ∪ body_classList p
   else body_classList p ∖ {[dark_theme]},
   (λ _, if d then moon else sun) <$> icon p).

End Theme.

(** ** lightbox.js *)

Module Lightbox.

(** [#lightboxImage]: the two properties the script assigns. *)
Record Img : Type := mkImg {
  src : string;
  alt : string
}.

(** An element matched by [.js-lightbox]: what [img.src] and [img.alt]
    evaluate to when its click listener runs.  [t_alt = None] is an [alt]
    that is not there ([undefined] or [null]). *)
Record Trigger : Type := mkTrigger {
  t_src : string;
  t_alt : option string
}.

(** The part of the document the script touches.
    - [overlay]: [classList] of [#lightboxOverlay], [None] when
      [getElementById] returns [null];
    - [bigImg]: [#lightboxImage], [None] when absent;
    - [closeBtn]: whether [#lightboxClose] exists;
    - [triggers]: the elements of [querySelectorAll(".js-lightbox")]. *)
Record Doc : Type := mkDoc {
  overlay : option (gset string);
  bigImg : option Img;
  closeBtn : bool;
  triggers : list Trigger
}.

(** The document together with whether the script's listeners have been
    registered. *)
Record App : Type := mkApp {
  doc : Doc;
  wired : bool
}.

(** The page as served, before [DOMContentLoaded]. *)
Definition start (d : Doc) : App := mkApp d false.

(** The element an event is targeted at ([e.target]). *)
Inductive Node : Type :=
| N_overlay
| N_bigImg
| N_closeBtn
| N_other (id : string).

#[global] Instance Node_eq_dec : EqDecision Node.
Proof. solve_decision. Defined.

(** The events the script listens to: a click on the [i]-th
    [.js-lightbox] element, a click that reaches the overlay with the
    given target, a key press anywhere in the document. *)
Inductive Event : Type :=
| Click_trigger (i : nat)
| Click_overlay (target : Node)
| Keydown (key : string).

Definition is_open_class : string := "is-open".

(** [alt || ""]: the empty string replaces every falsy value, the empty
    string included. *)
Definition or_empty (a : option string) : string :=
  match a with
  | Some s => if bool_decide (s = "") then "" else s
  | None => ""
  end.

(** The value of the constant [closeBtn]: the element, or [null]. *)
Definition closeBtn_ref (d : Doc) : option Node :=
  if closeBtn d then Some N_closeBtn else None.

(** *** The closures of the script

    They run only after the guard of line 6, so [overlay] and [bigImg] are
    elements there; on an absent element the maps below do nothing. *)

(** [function openLightbox(src, alt)], lines 10-14. *)
Definition openLightbox (s : string) (a : option string) (d : Doc) : Doc :=
  mkDoc ((λ c, {[is_open_class]} ∪ c) <$> overlay d)
        ((λ _, mkImg s (or_empty a)) <$> bigImg d)
        (closeBtn d) (triggers d).

(** [function closeLightbox()], lines 16-19. *)
Definition closeLightbox (d : Doc) : Doc :=
  mkDoc ((λ c, c ∖ {[is_open_class]}) <$> overlay d)
        ((λ b, mkImg "" (alt b)) <$> bigImg d)
        (closeBtn d) (triggers d).

(** The click listener of a [.js-lightbox] element, lines 22-24. *)
Definition trigger_onclick (img : Trigger) (d : Doc) : Doc :=
  openLightbox (t_src img) (t_alt img) d.

(** The click listener of the overlay, lines 27-31. *)
Definition overlay_onclick (target : Node) (d : Doc) : Doc :=
  if bool_decide (target = N_overlay)
     || bool_decide (Some target = closeBtn_ref d)
  then closeLightbox d
  else d.

(** The [keydown] listener of the document, lines 33-37. *)
Definition document_onkeydown (key : string) (d : Doc) : Doc :=
  if bool_decide (key = "Escape") then closeLightbox d else d.

(** The [DOMContentLoaded] handler, lines 1-38: the early return, then
    the registration of the listeners. *)
Definition DOMContentLoaded (a : App) : App :=
  if bool_decide (overlay (doc a) = None)
     || bool_decide (bigImg (doc a) = None)
  then a
  else mkApp (doc a) true.

(** The listener an event reaches. *)
Definition listener (e : Event) (d : Doc) : Doc :=
  match e with
  | Click_trigger i =>
      match triggers d !! i with
      | Some img => trigger_onclick img d
      | None => d
      end
  | Click_overlay target => overlay_onclick target d
  | Keydown key => document_onkeydown key d
  end.

(** An event changes the document only through a registered listener. *)
Definition dispatch (e : Event) (a : App) : App :=
  if wired a then mkApp (listener e (doc a)) true else a.

Definition run (es : list Event) (a : App) : App :=
  foldl (λ a e, dispatch e a) a es.

(** *** Observations *)

Definition overlay_open (a : App) : bool :=
  match overlay (doc a) with
  | Some c => bool_decide (is_open_class ∈ c)
  | None => false
  end.

(** Whether the overlay carries the class [c]. *)
Definition overlay_has (c : string) (a : App) : bool :=
  match overlay (doc a) with
  | Some cs => bool_decide (c ∈ cs)
  | None => false
  end.

Definition big_src (a : App) : option string := src <$> bigImg (doc a).
Definition big_alt (a : App) : option string := alt <$> bigImg (doc a).

(** The script is active: both elements exist and the listeners are
    registered. *)
Definition ready (a : App) : Prop :=
  wired a = true ∧ is_Some (overlay (doc a)) ∧ is_Some (bigImg (doc a)).

(** The thumbnails are those of [d], an active script has its two
    elements, and an open overlay shows one of the thumbnails. *)
Definition shows_thumbnail (d : Doc) (a : App) : Prop :=
  triggers (doc a) = triggers d ∧
  (wired a = true → is_Some (overlay (doc a)) ∧ is_Some (bigImg (doc a))) ∧
  (overlay_open a = true →
   ∃ img, img ∈ triggers d ∧
          bigImg (doc a) = Some (mkImg (t_src img) (or_empty (t_alt img)))).

(** The three ways of dismissing the overlay.  A click on the close
    control needs the control to exist. *)
Inductive Closing (d : Doc) : Event → Prop :=
| Closing_background : Closing d (Click_overlay N_overlay)
| Closing_control : closeBtn d = true → Closing d (Click_overlay N_closeBtn)
| Closing_escape : Closing d (Keydown "Escape").

(** A page with the overlay markup and two thumbnails, the second
    without [alt]; the same page without the overlay. *)
Definition gallery : Doc :=
  mkDoc (Some {["lightbox"]}) (Some (mkImg "" "")) true
        [mkTrigger "/img/cat.jpg" (Some "cat");
         mkTrigger "/img/dog.jpg" None].

Definition bare_gallery : Doc :=
  mkDoc None (Some (mkImg "" "")) true (triggers gallery).

End Lightbox.

(** ** Facts about theme.js *)

Module ThemeFacts.
Import Js Theme.

(** *** What the closures compute *)

Ltac js_unfold :=
  unfold mbind, mret, M_bind, M_ret, bind, ret, try_catch, throw, get,
    modify; simpl.

Lemma applyTheme_run (theme : string) (p : Page) :
  applyTheme theme p =
  (Normal tt, applied (bool_decide (theme = "dark")) theme p).
Proof.
  unfold applyTheme, setItem, classList_add, classList_remove,
    icon_set_textContent, applied, written, glyph.
  destruct p as [X i t [m r w]]. js_unfold.
  by destruct (bool_decide (theme = "dark")), w.
Qed.

Lemma read_savedTheme_run (p : Page) :
  read_savedTheme p = (Normal (savedTheme p), p).
Proof.
  unfold read_savedTheme, getItem, savedTheme, stored.
  destruct p as [X i t [m r w]]. js_unfold. by destruct r.
Qed.

Lemma DOMContentLoaded_run (p : Page) :
  DOMContentLoaded p =
  (Normal tt,
   with_listener (applied (saved_dark p) (theme_name (saved_dark p)) p)).
Proof.
  unfold DOMContentLoaded, saved_dark.
  unfold mbind at 1, M_bind, bind. rewrite read_savedTheme_run.
  generalize (savedTheme p) as sv. intros sv.
  unfold mbind, M_bind, bind.
  destruct (decide (sv = Some "dark")) as [->|Hd].
  { simpl. by rewrite applyTheme_run. }
  rewrite (bool_decide_eq_false_2 _ Hd). simpl.
  destruct (decide (sv = Some "light")) as [->|Hl].
  { simpl. by rewrite applyTheme_run. }
  rewrite (bool_decide_eq_false_2 _ Hl). by rewrite applyTheme_run.
Qed.

Lemma toggle_onclick_run (p : Page) :
  toggle_onclick p =
  (Normal tt, applied (negb (is_dark p)) (theme_name (negb (is_dark p))) p).
Proof.
  unfold toggle_onclick, classList_contains. js_unfold. fold (is_dark p).
  rewrite applyTheme_run. by destruct (is_dark p).
Qed.

Lemma click_toggle_run (p : Page) :
  click_toggle p =
  match toggle p with
  | Some true => toggle_onclick p
  | _ => (Normal tt, p)
  end.
Proof.
  unfold click_toggle. js_unfold. by destruct (toggle p) as [[]|].
Qed.

Lemma loaded_eq (p : Page) :
  loaded p =
  with_listener (applied (saved_dark p) (theme_name (saved_dark p)) p).
Proof. unfold loaded, exec. by rewrite DOMContentLoaded_run. Qed.

Lemma clicked_eq (p : Page) :
  exec click_toggle p =
  match toggle p with
  | Some true => applied (negb (is_dark p)) (theme_name (negb (is_dark p))) p
  | _ => p
  end.
Proof.
  unfold exec. rewrite click_toggle_run.
  destruct (toggle p) as [[]|]; try reflexivity.
  by rewrite toggle_onclick_run.
Qed.

(** *** The class, the glyph and the stored value after [applyTheme] *)

Lemma is_dark_applied (d : bool) (v : string) (p : Page) :
  is_dark (applied d v p) = d.
Proof.
  unfold is_dark, applied. simpl. destruct d.
  - apply bool_decide_eq_true_2.
    by apply elem_of_union_l, elem_of_singleton_2.
  - apply bool_decide_eq_false_2.
    rewrite elem_of_difference, elem_of_singleton. tauto.
Qed.

Lemma stored_written (v : string) (st : Storage) :
  writable st = true → items (written theme_key v st) !! theme_key = Some v.
Proof.
  intros Hw. unfold written. rewrite Hw. simpl. apply lookup_insert_eq.
Qed.

Lemma writable_written (k v : string) (st : Storage) :
  writable (written k v st) = writable st.
Proof. unfold written. by destruct (writable st) eqn:E. Qed.

Lemma readable_written (k v : string) (st : Storage) :
  readable (written k v st) = readable st.
Proof. unfold written. by destruct (writable st). Qed.

Lemma option_const_const {A} (a b : A) (o : option A) :
  (λ _, a) <$> ((λ _, b) <$> o) = (λ _, a) <$> o.
Proof. by destruct o. Qed.

Lemma applied_consistent (d : bool) (p : Page) :
  consistent (applied d (theme_name d) p).
Proof.
  split.
  - rewrite is_dark_applied. simpl. by rewrite option_const_const.
  - rewrite is_dark_applied. unfold stored. simpl.
    rewrite writable_written. apply stored_written.
Qed.

Lemma is_dark_loaded (p : Page) : is_dark (loaded p) = saved_dark p.
Proof. rewrite loaded_eq. apply is_dark_applied. Qed.

Lemma loaded_consistent (p : Page) : consistent (loaded p).
Proof.
  rewrite loaded_eq. apply (applied_consistent (saved_dark p) p).
Qed.

Lemma clicked_consistent (p : Page) :
  consistent p → consistent (exec click_toggle p).
Proof.
  intros Hp. rewrite clicked_eq.
  destruct (toggle p) as [[]|]; try done. apply applied_consistent.
Qed.

Lemma clicks_consistent (n : nat) (p : Page) :
  consistent p → consistent (clicks n p).
Proof.
  intros Hp. induction n as [|n IH]; [done|].
  simpl. by apply clicked_consistent.
Qed.

Lemma written_twice (v v' : string) (st : Storage) :
  (writable st = true → items st !! theme_key = Some v) →
  written theme_key v (written theme_key v' st) = st.
Proof.
  intros Hst. unfold written. destruct st as [m r w]. simpl in *.
  destruct w; simpl; [|done].
  rewrite insert_insert_eq, insert_id; [done | by apply Hst].
Qed.

Lemma applied_back (p : Page) :
  consistent p →
  applied (is_dark p) (theme_name (is_dark p))
    (applied (negb (is_dark p)) (theme_name (negb (is_dark p))) p) = p.
Proof.
  intros [Hicon Hst]. unfold applied at 1. simpl.
  rewrite option_const_const, <- Hicon, written_twice by done.
  destruct p as [X i t st]. f_equal. unfold is_dark. simpl.
  case_bool_decide as Hd; simpl.
  - apply set_eq. intros x.
    rewrite elem_of_union, elem_of_difference, elem_of_singleton.
    destruct (decide (x = dark_theme)) as [->|]; tauto.
  - apply set_eq. intros x.
    rewrite elem_of_difference, elem_of_union, elem_of_singleton.
    destruct (decide (x = dark_theme)) as [->|]; tauto.
Qed.

Lemma click_twice (p : Page) :
  consistent p → exec click_toggle (exec click_toggle p) = p.
Proof.
  intros Hp. rewrite (clicked_eq p).
  destruct (toggle p) as [[]|] eqn:Ht.
  - rewrite clicked_eq. simpl. rewrite Ht, is_dark_applied, negb_involutive.
    by apply applied_back.
  - rewrite clicked_eq. by rewrite Ht.
  - rewrite clicked_eq. by rewrite Ht.
Qed.

Lemma glyphs_differ : moon ≠ sun.
Proof. discriminate. Qed.

Lemma theme_name_cases (d : bool) :
  theme_name d = "light" ∨ theme_name d = "dark".
Proof. destruct d; auto. Qed.

Lemma writable_loaded (p : Page) :
  writable (localStorage (loaded p)) = writable (localStorage p).
Proof. rewrite loaded_eq. simpl. apply writable_written. Qed.

Lemma writable_clicked (p : Page) :
  writable (localStorage (exec click_toggle p)) = writable (localStorage p).
Proof.
  rewrite clicked_eq. destruct (toggle p) as [[]|]; try done.
  simpl. apply writable_written.
Qed.

Lemma writable_clicks (n : nat) (p : Page) :
  writable (localStorage (clicks n p)) = writable (localStorage p).
Proof.
  induction n as [|n IH]; [done|]. simpl. by rewrite writable_clicked.
Qed.

(** *** The specification's sentences *)

(** C1.  On load over a readable store, the dark-theme class is present
    exactly when the value stored under the key is "dark", and the icon
    shows the moon in that case and the sun in every other: for "light",
    for any other string and for an absent value the light theme is
    applied. *)
Theorem load_applies_stored_theme (p : Page) :
  readable (localStorage p) = true →
  (dark_theme ∈ body_classList (loaded p) ↔ stored p = Some "dark") ∧
  icon (loaded p) =
    (λ _, if bool_decide (stored p = Some "dark") then moon else sun)
      <$> icon p.
Proof.
  intros Hr. split.
  - pose proof (is_dark_loaded p) as Hd.
    unfold is_dark, saved_dark, savedTheme in Hd.
    rewrite Hr in Hd. split.
    + intros Hin. rewrite (bool_decide_eq_true_2 _ Hin) in Hd.
      symmetry in Hd. by apply bool_decide_eq_true_1 in Hd.
    + intros Hs. rewrite (bool_decide_eq_true_2 _ Hs) in Hd.
      by apply bool_decide_eq_true_1 in Hd.
  - rewrite loaded_eq. simpl. unfold saved_dark, savedTheme. by rewrite Hr.
Qed.

Lemma load_applies_stored_theme_witness :
  (dark_theme ∈ body_classList (loaded dark_visit) ↔
   stored dark_visit = Some "dark") ∧
  icon (loaded dark_visit) =
    (λ _, if bool_decide (stored dark_visit = Some "dark")
          then moon else sun) <$> icon dark_visit.
Proof. exact (load_applies_stored_theme dark_visit eq_refl). Defined.

(** C6.  In every state the page can be in once it is loaded (after the
    load handler and any number of clicks), two clicks on the toggle give
    back the very same page: the class list, the icon glyph and the
    storage are what they were before the two clicks. *)
Theorem toggle_twice_restores (p0 : Page) (n : nat) :
  exec click_toggle (exec click_toggle (clicks n (loaded p0)))
  = clicks n (loaded p0).
Proof. apply click_twice, clicks_consistent, loaded_consistent. Qed.

(** C10.  With a working storage, after the load handler and after any
    number of toggle clicks the value under the key is "light" or "dark";
    a value that was neither before the load has become "light". *)
Theorem stored_theme_invariant (p : Page) (n : nat) :
  readable (localStorage p) = true →
  writable (localStorage p) = true →
  (stored (clicks n (loaded p)) = Some "light" ∨
   stored (clicks n (loaded p)) = Some "dark") ∧
  (stored p ≠ Some "dark" → stored p ≠ Some "light" →
   stored (loaded p) = Some "light").
Proof.
  intros Hr Hw. split.
  - destruct (clicks_consistent n (loaded p) (loaded_consistent p))
      as [_ Hst].
    rewrite Hst by (by rewrite writable_clicks, writable_loaded).
    destruct (theme_name_cases (is_dark (clicks n (loaded p)))) as [->| ->];
      auto.
  - intros Hd _. destruct (loaded_consistent p) as [_ Hst].
    rewrite Hst by (by rewrite writable_loaded).
    rewrite is_dark_loaded. unfold saved_dark, savedTheme. rewrite Hr.
    by rewrite (bool_decide_eq_false_2 _ Hd).
Qed.

Lemma stored_theme_invariant_witness :
  (stored (clicks 3 (loaded first_visit)) = Some "light" ∨
   stored (clicks 3 (loaded first_visit)) = Some "dark") ∧
  (stored first_visit ≠ Some "dark" → stored first_visit ≠ Some "light" →
   stored (loaded first_visit) = Some "light").
Proof. exact (stored_theme_invariant first_visit 3 eq_refl eq_refl). Defined.

Example first_visit_three_clicks :
  stored first_visit = None ∧
  stored (loaded first_visit) = Some "light" ∧
  stored (clicks 3 (loaded first_visit)) = Some "dark".
Proof. vm_compute. auto. Qed.

Lemma shown_applied (d : bool) (v : string) (p : Page) (st : Storage) :
  shown (applied d v (with_storage p st)) = shown (applied d v p).
Proof. reflexivity. Qed.

Lemma shown_clicked (p : Page) (st : Storage) :
  shown (exec click_toggle (with_storage p st)) = shown (exec click_toggle p).
Proof.
  rewrite !clicked_eq. simpl. destruct (toggle p) as [[]|]; try done.
Qed.

Lemma shown_loaded (p : Page) (st : Storage) :
  shown (loaded (with_storage p st)) =
  shown (applied (saved_dark (with_storage p st))
           (theme_name (saved_dark (with_storage p st))) p).
Proof. by rewrite loaded_eq. Qed.

(** C8.  Whatever the store does, [applyTheme], the load handler and a
    click return normally, and the theme is applied all the same:
    - after [applyTheme theme] the dark-theme class is on the body for
      "dark" and off it for any other theme, and the icon shows the moon
      or the sun accordingly;
    - after a click on a wired toggle the class and the glyph are those of
      the flipped theme;
    - after the load handler they are those of the dark theme when the
      store could be read and held "dark", and those of the light theme
      otherwise, in particular when the read threw.
    In each case this is also what the same step leaves over a working
    store with the same content, a store that cannot be read counting as
    one with nothing stored. *)
Theorem storage_failures_ignored (p : Page) (st : Storage) (theme : string) :
  (returns (applyTheme theme) (with_storage p st) ∧
   returns DOMContentLoaded (with_storage p st) ∧
   returns click_toggle (with_storage p st)) ∧
  (shown (exec (applyTheme theme) (with_storage p st))
   = themed (bool_decide (theme = "dark")) p ∧
   shown (exec click_toggle (with_storage p st))
   = match toggle p with
     | Some true => themed (negb (is_dark p)) p
     | _ => shown p
     end ∧
   shown (loaded (with_storage p st))
   = themed (bool_decide
               ((if readable st then items st !! theme_key else None)
                = Some "dark")) p) ∧
  shown (exec (applyTheme theme) (with_storage p st)) =
    shown (exec (applyTheme theme)
             (with_storage p (mkStorage (items st) true true))) ∧
  shown (exec click_toggle (with_storage p st)) =
    shown (exec click_toggle
             (with_storage p (mkStorage (items st) true true))) ∧
  shown (loaded (with_storage p st)) =
    shown (loaded (with_storage p
             (mkStorage (if readable st then items st else ∅) true true))).
Proof.
  split; [|split]; [| |repeat split].
  - repeat split.
    + exists tt. by rewrite applyTheme_run.
    + exists tt. by rewrite DOMContentLoaded_run.
    + exists tt. rewrite click_toggle_run.
      destruct (toggle (with_storage p st)) as [[]|]; try done.
      by rewrite toggle_onclick_run.
  - repeat split.
    + unfold exec. by rewrite applyTheme_run.
    + rewrite clicked_eq. simpl. by destruct (toggle p) as [[]|].
    + by rewrite shown_loaded.
  - unfold exec. rewrite !applyTheme_run. simpl. by rewrite !shown_applied.
  - by rewrite !shown_clicked.
  - rewrite !shown_loaded. unfold saved_dark, savedTheme, stored. simpl.
    by destruct (readable st).
Qed.

Example blocked_visit_loads :
  returns DOMContentLoaded blocked_visit ∧
  (is_dark (loaded blocked_visit) = false ∧
   icon (loaded blocked_visit) = Some sun) ∧
  (is_dark (clicks 1 (loaded blocked_visit)) = true ∧
   icon (clicks 1 (loaded blocked_visit)) = Some moon) ∧
  localStorage (clicks 1 (loaded blocked_visit)) = localStorage blocked_visit.
Proof. split; [by exists tt|]. vm_compute. auto. Qed.

Lemma written_other (k v : string) (st : Storage) :
  k ≠ theme_key → items (written theme_key v st) !! k = items st !! k.
Proof.
  intros Hk. unfold written. destruct (writable st); [|done].
  simpl. by apply lookup_insert_ne.
Qed.

Lemma written_same (v : string) (st : Storage) :
  items st !! theme_key = Some v → written theme_key v st = st.
Proof.
  intros Hv. unfold written. destruct st as [m r w]. simpl in *.
  destruct w; [|done]. by rewrite insert_id.
Qed.

(** C4, as the code has it.  The load handler writes too: on a first
    visit nothing is stored before it and "light" is stored after it. *)
Lemma load_writes_storage :
  stored first_visit = None ∧ stored (loaded first_visit) = Some "light".
Proof. vm_compute. auto. Qed.

(** C4, amended.  The storage changes through [applyTheme] only, which
    the load handler runs as well as the click listener.  The load handler
    applies the theme it read ("dark" for a stored "dark", "light"
    otherwise) and leaves its name written under the key when the store
    takes the write; a click on a wired toggle leaves the name of the
    flipped theme there, and a click on a toggle without listener leaves
    the storage alone.  Every other key stays as it was.  The load's write
    changes nothing when the value it read was already "dark" or "light";
    when it was anything else, or absent, a store that takes the write
    holds "light" afterwards. *)
Theorem storage_written_by_applyTheme (p : Page) :
  (is_dark (loaded p) = saved_dark p ∧
   localStorage (loaded p) =
     written theme_key (theme_name (saved_dark p)) (localStorage p)) ∧
  localStorage (exec click_toggle p) =
    match toggle p with
    | Some true =>
        written theme_key (theme_name (negb (is_dark p))) (localStorage p)
    | _ => localStorage p
    end ∧
  (∀ k, k ≠ theme_key →
        items (localStorage (loaded p)) !! k = items (localStorage p) !! k ∧
        items (localStorage (exec click_toggle p)) !! k
        = items (localStorage p) !! k) ∧
  (savedTheme p = Some "dark" ∨ savedTheme p = Some "light" →
   localStorage (loaded p) = localStorage p) ∧
  (savedTheme p ≠ Some "dark" → savedTheme p ≠ Some "light" →
   writable (localStorage p) = true →
   stored (loaded p) = Some "light").
Proof.
  assert (Hload : localStorage (loaded p) =
    written theme_key (theme_name (saved_dark p)) (localStorage p)).
  { by rewrite loaded_eq. }
  assert (Hclick : localStorage (exec click_toggle p) =
    match toggle p with
    | Some true =>
        written theme_key (theme_name (negb (is_dark p))) (localStorage p)
    | _ => localStorage p
    end).
  { rewrite clicked_eq. by destruct (toggle p) as [[]|]. }
  split; [split; [apply is_dark_loaded | done]|].
  split; [done|]. split; [|split].
  - intros k Hk. rewrite Hload, Hclick. split.
    + by apply written_other.
    + destruct (toggle p) as [[]|]; try done. by apply written_other.
  - intros Hs. rewrite Hload. apply written_same.
    unfold saved_dark, savedTheme, stored in *.
    destruct (readable (localStorage p)); [|by destruct Hs].
    destruct Hs as [Hs|Hs]; by rewrite Hs.
  - intros Hd _ Hw. unfold stored. rewrite Hload.
    rewrite (stored_written _ _ Hw). unfold saved_dark.
    by rewrite (bool_decide_eq_false_2 _ Hd).
Qed.

(** *** Further properties of the script *)

Lemma toggle_loaded (p : Page) :
  toggle (loaded p) = (λ _, true) <$> toggle p.
Proof. by rewrite loaded_eq. Qed.

Lemma toggle_clicked (p : Page) : toggle (exec click_toggle p) = toggle p.
Proof. rewrite clicked_eq. by destruct (toggle p) as [[]|] eqn:Ht. Qed.

Lemma toggle_clicks (n : nat) (p : Page) : toggle (clicks n p) = toggle p.
Proof.
  induction n as [|n IH]; [done|]. simpl. by rewrite toggle_clicked.
Qed.

Lemma readable_clicks (n : nat) (p : Page) :
  readable (localStorage (clicks n (loaded p))) = readable (localStorage p).
Proof.
  induction n as [|n IH]; simpl.
  - rewrite loaded_eq. simpl. apply readable_written.
  - rewrite clicked_eq. destruct (toggle _) as [[]|]; try done.
    simpl. by rewrite readable_written.
Qed.

Lemma applied_other_class (d : bool) (v c : string) (p : Page) :
  c ≠ dark_theme →
  c ∈ body_classList (applied d v p) ↔ c ∈ body_classList p.
Proof.
  intros Hc. unfold applied. simpl. destruct d.
  - rewrite elem_of_union, elem_of_singleton. tauto.
  - rewrite elem_of_difference, elem_of_singleton. tauto.
Qed.

(** X1.  On a page with a toggle button every click flips the theme: after
    the load handler and [n] clicks the dark-theme class is present when
    the load applied dark and [n] is even, or applied light and [n] is
    odd. *)
Theorem clicks_flip_theme (p : Page) (n : nat) :
  is_Some (toggle p) →
  is_dark (clicks n (loaded p)) = xorb (saved_dark p) (Nat.odd n).
Proof.
  intros [b Hb]. induction n as [|n IH].
  - simpl. rewrite is_dark_loaded. by destruct (saved_dark p).
  - simpl. rewrite clicked_eq, toggle_clicks, toggle_loaded, Hb. simpl.
    rewrite is_dark_applied, IH, Nat.odd_succ, <- Nat.negb_odd.
    by destruct (saved_dark p), (Nat.odd n).
Qed.

Lemma clicks_flip_theme_witness :
  is_dark (clicks 3 (loaded dark_visit))
  = xorb (saved_dark dark_visit) (Nat.odd 3).
Proof.
  apply (clicks_flip_theme dark_visit 3). eexists. reflexivity.
Defined.

(** X2.  The script adds and removes the dark-theme class only: any other
    class is on the body after the load handler and any number of clicks
    exactly when it was there before. *)
Theorem other_classes_kept (p : Page) (n : nat) (c : string) :
  c ≠ dark_theme →
  c ∈ body_classList (clicks n (loaded p)) ↔ c ∈ body_classList p.
Proof.
  intros Hc. induction n as [|n IH].
  - simpl. rewrite loaded_eq.
    apply (applied_other_class (saved_dark p) (theme_name (saved_dark p))
             c p Hc).
  - simpl. rewrite clicked_eq.
    destruct (toggle (clicks n (loaded p))) as [[]|]; try done.
    by rewrite applied_other_class.
Qed.

Lemma other_classes_kept_witness :
  "page" ∈ body_classList (clicks 1 (loaded dark_visit)) ↔
  "page" ∈ body_classList dark_visit.
Proof. apply (other_classes_kept dark_visit 1 "page"). discriminate. Defined.

(** X3.  The icon follows the class: after the load handler and any number
    of clicks an icon element shows the moon when the dark-theme class is
    present and the sun when it is not; a page without icon element stays
    without. *)
Theorem icon_follows_class (p : Page) (n : nat) :
  icon (clicks n (loaded p))
  = (λ _, glyph (is_dark (clicks n (loaded p)))) <$> icon p.
Proof.
  destruct n as [|n].
  - simpl. rewrite is_dark_loaded. by rewrite loaded_eq.
  - assert (Hi : ∀ m, is_Some (icon (clicks m (loaded p))) ↔ is_Some (icon p)).
    { induction m as [|m IH]; simpl.
      - rewrite loaded_eq. simpl. by rewrite fmap_is_Some.
      - rewrite clicked_eq. destruct (toggle _) as [[]|]; try done.
        simpl. by rewrite fmap_is_Some. }
    destruct (clicks_consistent (S n) (loaded p) (loaded_consistent p))
      as [Hc _].
    rewrite Hc. specialize (Hi (S n)).
    destruct (icon (clicks (S n) (loaded p))) as [g|], (icon p) as [g'|];
      simpl; try done.
    + destruct Hi as [Hi _]. by destruct Hi.
    + destruct Hi as [_ Hi]. by destruct Hi.
Qed.

(** X4.  On a store that takes writes, the value under the key names the
    theme on screen after the load handler and after every click: "dark"
    when the dark-theme class is present, "light" when it is not. *)
Theorem stored_names_shown_theme (p : Page) (n : nat) :
  writable (localStorage p) = true →
  stored (clicks n (loaded p))
  = Some (theme_name (is_dark (clicks n (loaded p)))).
Proof.
  intros Hw.
  destruct (clicks_consistent n (loaded p) (loaded_consistent p)) as [_ Hst].
  apply Hst. by rewrite writable_clicks, writable_loaded.
Qed.

Lemma stored_names_shown_theme_witness :
  stored (clicks 1 (loaded first_visit))
  = Some (theme_name (is_dark (clicks 1 (loaded first_visit)))).
Proof. exact (stored_names_shown_theme first_visit 1 eq_refl). Defined.

(** X5.  The preference survives a reload.  Over a working store, the load
    handler of any page opened on the storage that an earlier page left
    behind applies the theme that page showed last, whatever classes and
    icon text the markup of the new page starts with. *)
Theorem reload_restores_theme (p q : Page) (n : nat) :
  readable (localStorage p) = true →
  writable (localStorage p) = true →
  is_dark (loaded (with_storage q (localStorage (clicks n (loaded p)))))
  = is_dark (clicks n (loaded p)) ∧
  icon (loaded (with_storage q (localStorage (clicks n (loaded p)))))
  = (λ _, glyph (is_dark (clicks n (loaded p)))) <$> icon q.
Proof.
  intros Hr Hw.
  assert (Hd : saved_dark (with_storage q (localStorage (clicks n (loaded p))))
               = is_dark (clicks n (loaded p))).
  { unfold saved_dark, savedTheme. simpl. rewrite readable_clicks, Hr.
    destruct (clicks_consistent n (loaded p) (loaded_consistent p))
      as [_ Hst].
    unfold stored in *. simpl.
    rewrite Hst by (by rewrite writable_clicks, writable_loaded).
    by destruct (is_dark (clicks n (loaded p))). }
  split.
  - by rewrite is_dark_loaded.
  - rewrite loaded_eq. simpl. by rewrite Hd.
Qed.

Lemma reload_restores_theme_witness :
  is_dark (loaded (with_storage first_visit
                     (localStorage (clicks 1 (loaded first_visit)))))
  = is_dark (clicks 1 (loaded first_visit)) ∧
  icon (loaded (with_storage first_visit
                  (localStorage (clicks 1 (loaded first_visit)))))
  = (λ _, glyph (is_dark (clicks 1 (loaded first_visit))))
      <$> icon first_visit.
Proof.
  exact (reload_restores_theme first_visit first_visit 1 eq_refl eq_refl).
Defined.

(** X6.  A store that refuses writes is left exactly as it was: after the
    load handler and any number of clicks the storage is the one the page
    started with, so nothing of the session's theme is kept. *)
Theorem unwritable_store_unchanged (p : Page) (n : nat) :
  writable (localStorage p) = false →
  localStorage (clicks n (loaded p)) = localStorage p.
Proof.
  intros Hw.
  assert (Hwr : ∀ v st, writable st = false → written theme_key v st = st).
  { intros v st Hst. unfold written. by rewrite Hst. }
  induction n as [|n IH]; simpl.
  - rewrite loaded_eq. simpl. by apply Hwr.
  - rewrite clicked_eq. destruct (toggle _) as [[]|]; try done.
    simpl. rewrite Hwr; [done|]. by rewrite IH.
Qed.

Lemma unwritable_store_unchanged_witness :
  localStorage (clicks 2 (loaded blocked_visit)) = localStorage blocked_visit.
Proof. exact (unwritable_store_unchanged blocked_visit 2 eq_refl). Defined.

End ThemeFacts.

(** ** Facts about lightbox.js *)

Module LightboxFacts.
Import Lightbox.

Lemma or_empty_default (a : option string) : or_empty a = default "" a.
Proof.
  destruct a as [s|]; [|done]. simpl. by case_bool_decide.
Qed.

Lemma DOMContentLoaded_ready (d : Doc) :
  is_Some (overlay d) → is_Some (bigImg d) →
  ready (DOMContentLoaded (start d)).
Proof.
  intros [c Hc] [b Hb]. unfold DOMContentLoaded, start, ready. simpl.
  rewrite Hc, Hb. simpl. eauto.
Qed.

Lemma listener_is_Some (e : Event) (d : Doc) :
  (is_Some (overlay (listener e d)) ↔ is_Some (overlay d)) ∧
  (is_Some (bigImg (listener e d)) ↔ is_Some (bigImg d)).
Proof.
  destruct e as [i|tg|k]; simpl.
  - destruct (triggers d !! i); [|done].
    unfold trigger_onclick, openLightbox. simpl.
    by rewrite !fmap_is_Some.
  - unfold overlay_onclick.
    destruct (_ || _); [|done]. simpl. by rewrite !fmap_is_Some.
  - unfold document_onkeydown.
    destruct (bool_decide _); [|done]. simpl. by rewrite !fmap_is_Some.
Qed.

Lemma dispatch_ready (e : Event) (a : App) :
  ready a → ready (dispatch e a).
Proof.
  intros (Hw & Ho & Hb). unfold dispatch. rewrite Hw.
  destruct (listener_is_Some e (doc a)) as [Ho' Hb'].
  split; [done|]. simpl. split; [by apply Ho' | by apply Hb'].
Qed.

Lemma dispatch_ready_eq (e : Event) (a : App) :
  ready a → dispatch e a = mkApp (listener e (doc a)) true.
Proof. intros (Hw & _). unfold dispatch. by rewrite Hw. Qed.

Lemma closing_listener (d : Doc) (e : Event) :
  Closing d e → listener e d = closeLightbox d.
Proof.
  intros [ |Hc| ]; simpl.
  - reflexivity.
  - unfold overlay_onclick, closeBtn_ref. rewrite Hc.
    by rewrite (bool_decide_eq_true_2 (Some N_closeBtn = Some N_closeBtn)),
      orb_true_r.
  - reflexivity.
Qed.

(** C2.  In every state of an active lightbox, open or closed, a click on
    the overlay background, a click on the close control and an Escape
    key press each leave the overlay without the is-open class and the
    enlarged image with the empty string as source. *)
Theorem closing_closes (a : App) (e : Event) :
  ready a → Closing (doc a) e →
  overlay_open (dispatch e a) = false ∧ big_src (dispatch e a) = Some "".
Proof.
  intros Ha He. rewrite (dispatch_ready_eq e a Ha).
  rewrite (closing_listener _ _ He).
  destruct Ha as (_ & [c Hc] & [b Hb]).
  unfold overlay_open, big_src, closeLightbox. simpl. rewrite Hc, Hb. simpl.
  split; [|done]. apply bool_decide_eq_false_2.
  rewrite elem_of_difference, elem_of_singleton. tauto.
Qed.

(** Once the load handler has found both elements, the script stays
    active whatever events follow. *)
Lemma run_ready (d : Doc) (es : list Event) :
  is_Some (overlay d) → is_Some (bigImg d) →
  ready (run es (DOMContentLoaded (start d))).
Proof.
  intros Ho Hb. pose proof (DOMContentLoaded_ready d Ho Hb) as H0.
  revert H0. generalize (DOMContentLoaded (start d)) as a.
  induction es as [|e es IH]; intros a Ha; simpl; [done|].
  by apply IH, dispatch_ready.
Qed.

Lemma closing_closes_witness :
  overlay_open
    (dispatch (Click_overlay N_closeBtn)
       (run [Click_trigger 0] (DOMContentLoaded (start gallery)))) = false ∧
  big_src
    (dispatch (Click_overlay N_closeBtn)
       (run [Click_trigger 0] (DOMContentLoaded (start gallery)))) = Some "".
Proof.
  apply (closing_closes
           (run [Click_trigger 0] (DOMContentLoaded (start gallery)))
           (Click_overlay N_closeBtn)).
  - split; [reflexivity | split; eexists; reflexivity].
  - apply Closing_control. reflexivity.
Defined.

(** C3.  A click on a thumbnail whose source is [t_src img] and whose alt
    is [t_alt img] leaves the overlay with the is-open class and the
    enlarged image with that source and that alt, the empty string when
    the alt is absent. *)
Theorem trigger_click_opens (a : App) (i : nat) (img : Trigger) :
  ready a → triggers (doc a) !! i = Some img →
  overlay_open (dispatch (Click_trigger i) a) = true ∧
  big_src (dispatch (Click_trigger i) a) = Some (t_src img) ∧
  big_alt (dispatch (Click_trigger i) a) = Some (default "" (t_alt img)).
Proof.
  intros Ha Hi. rewrite (dispatch_ready_eq _ a Ha). simpl.
  rewrite Hi. destruct Ha as (_ & [c Hc] & [b Hb]).
  unfold overlay_open, big_src, big_alt, trigger_onclick, openLightbox.
  simpl. rewrite Hc, Hb. simpl. rewrite or_empty_default.
  split; [|done]. apply bool_decide_eq_true_2.
  by apply elem_of_union_l, elem_of_singleton_2.
Qed.

Lemma trigger_click_opens_witness :
  overlay_open (dispatch (Click_trigger 1) (DOMContentLoaded (start gallery)))
  = true ∧
  big_src (dispatch (Click_trigger 1) (DOMContentLoaded (start gallery)))
  = Some "/img/dog.jpg" ∧
  big_alt (dispatch (Click_trigger 1) (DOMContentLoaded (start gallery)))
  = Some "".
Proof.
  apply (trigger_click_opens (DOMContentLoaded (start gallery)) 1
           (mkTrigger "/img/dog.jpg" None)).
  - split; [reflexivity | split; eexists; reflexivity].
  - reflexivity.
Defined.

(** C7.  A click that reaches the overlay with the enlarged image as its
    target changes nothing: the class list of the overlay, the source and
    the alt stay as they are, so an open overlay stays open. *)
Theorem click_on_image_ignored (a : App) :
  dispatch (Click_overlay N_bigImg) a = a.
Proof.
  unfold dispatch. destruct a as [d w]. simpl. destruct w; [|done].
  f_equal. unfold overlay_onclick, closeBtn_ref.
  by destruct (closeBtn d).
Qed.

Example open_gallery_image_click :
  overlay_open
    (run [Click_trigger 0; Click_overlay N_bigImg]
       (DOMContentLoaded (start gallery))) = true.
Proof. reflexivity. Qed.

(** C5, as the code has it.  [closeLightbox] does not touch the alt:
    after opening the first thumbnail and pressing Escape the enlarged
    image still has the alt "cat". *)
Lemma close_keeps_alt_example :
  big_alt
    (run [Click_trigger 0; Keydown "Escape"]
       (DOMContentLoaded (start gallery))) = Some "cat" ∧
  big_src
    (run [Click_trigger 0; Keydown "Escape"]
       (DOMContentLoaded (start gallery))) = Some "".
Proof. split; reflexivity. Qed.

(** C5, amended.  Closing clears the source of the enlarged image and
    leaves its alt text as it was. *)
Theorem closing_clears_src_keeps_alt (a : App) (e : Event) :
  ready a → Closing (doc a) e →
  big_src (dispatch e a) = Some "" ∧ big_alt (dispatch e a) = big_alt a.
Proof.
  intros Ha He. rewrite (dispatch_ready_eq e a Ha).
  rewrite (closing_listener _ _ He).
  destruct Ha as (_ & _ & [b Hb]).
  unfold big_src, big_alt, closeLightbox. simpl. by rewrite Hb.
Qed.

Lemma closing_clears_src_keeps_alt_witness :
  big_src
    (dispatch (Keydown "Escape")
       (run [Click_trigger 0] (DOMContentLoaded (start gallery)))) = Some "" ∧
  big_alt
    (dispatch (Keydown "Escape")
       (run [Click_trigger 0] (DOMContentLoaded (start gallery))))
  = big_alt (run [Click_trigger 0] (DOMContentLoaded (start gallery))).
Proof.
  apply (closing_clears_src_keeps_alt
           (run [Click_trigger 0] (DOMContentLoaded (start gallery)))
           (Keydown "Escape")).
  - split; [reflexivity | split; eexists; reflexivity].
  - apply Closing_escape.
Defined.

Lemma run_unwired (es : list Event) (a : App) :
  wired a = false → run es a = a.
Proof.
  intros Hw. induction es as [|e es IH]; [done|].
  change (run es (dispatch e a) = a). unfold dispatch. by rewrite Hw.
Qed.

(** C9.  When the overlay or the enlarged image is missing, the load
    handler registers nothing and changes nothing, and no sequence of
    clicks and key presses changes the page afterwards. *)
Theorem missing_elements_inactive (d : Doc) (es : list Event) :
  overlay d = None ∨ bigImg d = None →
  DOMContentLoaded (start d) = start d ∧
  run es (DOMContentLoaded (start d)) = start d.
Proof.
  intros Hd.
  assert (H0 : DOMContentLoaded (start d) = start d).
  { unfold DOMContentLoaded, start. simpl.
    destruct Hd as [-> | ->]; simpl; [done|].
    by rewrite orb_true_r. }
  split; [done|]. rewrite H0. by apply run_unwired.
Qed.

Lemma missing_elements_inactive_witness :
  DOMContentLoaded (start bare_gallery) = start bare_gallery ∧
  run [Click_trigger 0; Keydown "Escape"]
    (DOMContentLoaded (start bare_gallery)) = start bare_gallery.
Proof.
  apply (missing_elements_inactive bare_gallery
           [Click_trigger 0; Keydown "Escape"]).
  left. reflexivity.
Defined.

(** *** Further properties of the script *)

(** What a listener does to the document is one of three things. *)
Lemma listener_cases (e : Event) (d : Doc) :
  listener e d = d ∨
  listener e d = closeLightbox d ∨
  ∃ img, img ∈ triggers d ∧
         listener e d = openLightbox (t_src img) (t_alt img) d.
Proof.
  destruct e as [i|tg|k]; simpl.
  - destruct (triggers d !! i) as [img|] eqn:Hi; [|by left].
    right. right. exists img. split; [|done].
    apply list_elem_of_lookup. by exists i.
  - unfold overlay_onclick. destruct (_ || _); auto.
  - unfold document_onkeydown. destruct (bool_decide _); auto.
Qed.

Lemma listener_frame (e : Event) (d : Doc) :
  triggers (listener e d) = triggers d ∧ closeBtn (listener e d) = closeBtn d.
Proof.
  destruct (listener_cases e d) as [-> | [-> | (img & _ & ->)]]; done.
Qed.

Lemma closeLightbox_twice (d : Doc) :
  closeLightbox (closeLightbox d) = closeLightbox d.
Proof.
  unfold closeLightbox. simpl. f_equal.
  - destruct (overlay d) as [cs|]; [|done]. simpl. f_equal.
    apply set_eq. intros x. rewrite !elem_of_difference. tauto.
  - by destruct (bigImg d).
Qed.

Lemma openLightbox_twice (s s' : string) (al al' : option string) (d : Doc) :
  openLightbox s' al' (openLightbox s al d) = openLightbox s' al' d.
Proof.
  unfold openLightbox. simpl. f_equal.
  - destruct (overlay d) as [cs|]; [|done]. simpl. f_equal.
    apply set_eq. intros x. rewrite !elem_of_union. tauto.
  - by destruct (bigImg d).
Qed.

Lemma listeners_guard (d : Doc) :
  doc (DOMContentLoaded (start d)) = d ∧
  (wired (DOMContentLoaded (start d)) = true →
   is_Some (overlay d) ∧ is_Some (bigImg d)).
Proof.
  unfold DOMContentLoaded, start. simpl.
  destruct (overlay d) as [cs|], (bigImg d) as [b|]; simpl;
    (split; [done|]); intros Hw; try done; split; eauto.
Qed.

(** X7.  The load handler leaves the document as it is, and registers the
    listeners exactly when both the overlay and the enlarged image exist:
    neither the close control nor any thumbnail is needed for that. *)
Theorem listeners_iff_elements (d : Doc) :
  doc (DOMContentLoaded (start d)) = d ∧
  (wired (DOMContentLoaded (start d)) = true ↔
   is_Some (overlay d) ∧ is_Some (bigImg d)).
Proof.
  unfold DOMContentLoaded, start. simpl.
  destruct (overlay d) as [cs|], (bigImg d) as [b|]; simpl;
    (split; [done|]);
    (split; [intros Hw; try done; split; eauto
            | intros [[? ?] [? ?]]; done]).
Qed.

(** X8.  Only the key named "Escape" closes the overlay: a key press with
    any other key name changes nothing. *)
Theorem other_keys_ignored (a : App) (key : string) :
  key ≠ "Escape" → dispatch (Keydown key) a = a.
Proof.
  intros Hk. unfold dispatch. destruct a as [d w]. simpl.
  destruct w; [|done]. unfold document_onkeydown.
  by rewrite (bool_decide_eq_false_2 _ Hk).
Qed.

Lemma other_keys_ignored_witness :
  dispatch (Keydown "Esc")
    (run [Click_trigger 0] (DOMContentLoaded (start gallery)))
  = run [Click_trigger 0] (DOMContentLoaded (start gallery)).
Proof.
  apply (other_keys_ignored
           (run [Click_trigger 0] (DOMContentLoaded (start gallery))) "Esc").
  discriminate.
Defined.

(** X9.  A click that reaches the overlay closes it only when its target
    is the overlay itself or the close control: with any other target
    inside the overlay the state is unchanged. *)
Theorem click_elsewhere_ignored (a : App) (target : Node) :
  target ≠ N_overlay → target ≠ N_closeBtn →
  dispatch (Click_overlay target) a = a.
Proof.
  intros Ho Hc. unfold dispatch. destruct a as [d w]. simpl.
  destruct w; [|done]. unfold overlay_onclick, closeBtn_ref.
  rewrite (bool_decide_eq_false_2 _ Ho). simpl.
  destruct (closeBtn d); [|done].
  rewrite bool_decide_eq_false_2; [done|]. intros [=]. done.
Qed.

Lemma click_elsewhere_ignored_witness :
  dispatch (Click_overlay (N_other "caption"))
    (run [Click_trigger 0] (DOMContentLoaded (start gallery)))
  = run [Click_trigger 0] (DOMContentLoaded (start gallery)).
Proof.
  apply (click_elsewhere_ignored
           (run [Click_trigger 0] (DOMContentLoaded (start gallery)))
           (N_other "caption")); discriminate.
Defined.

(** X10.  Closing is idempotent: a second closing event after a first one,
    of whichever of the three kinds, changes nothing any more. *)
Theorem closing_twice (a : App) (e1 e2 : Event) :
  Closing (doc a) e1 → Closing (doc a) e2 →
  dispatch e2 (dispatch e1 a) = dispatch e1 a.
Proof.
  intros H1 H2. unfold dispatch. destruct a as [d w]. simpl in *.
  destruct w; [|done]. simpl. f_equal.
  rewrite (closing_listener d e1 H1).
  assert (H2' : Closing (closeLightbox d) e2).
  { destruct H2; constructor. done. }
  rewrite (closing_listener _ e2 H2'). apply closeLightbox_twice.
Qed.

Lemma closing_twice_witness :
  dispatch (Click_overlay N_overlay)
    (dispatch (Keydown "Escape")
       (run [Click_trigger 0] (DOMContentLoaded (start gallery))))
  = dispatch (Keydown "Escape")
      (run [Click_trigger 0] (DOMContentLoaded (start gallery))).
Proof.
  apply (closing_twice
           (run [Click_trigger 0] (DOMContentLoaded (start gallery)))
           (Keydown "Escape") (Click_overlay N_overlay)).
  - apply Closing_escape.
  - apply Closing_background.
Defined.

(** X11.  The thumbnail clicked last wins: a click on a thumbnail while
    another image is open leaves the state that the same click leaves
    without the earlier one. *)
Theorem last_opened_wins (a : App) (i j : nat) :
  is_Some (triggers (doc a) !! j) →
  dispatch (Click_trigger j) (dispatch (Click_trigger i) a)
  = dispatch (Click_trigger j) a.
Proof.
  intros [img Hj]. unfold dispatch. destruct a as [d w]. simpl in *.
  destruct w; [|done]. simpl. f_equal.
  destruct (triggers d !! i) as [img'|]; [|done].
  unfold trigger_onclick. simpl. rewrite Hj. apply openLightbox_twice.
Qed.

Lemma last_opened_wins_witness :
  dispatch (Click_trigger 1)
    (dispatch (Click_trigger 0) (DOMContentLoaded (start gallery)))
  = dispatch (Click_trigger 1) (DOMContentLoaded (start gallery)).
Proof.
  apply (last_opened_wins (DOMContentLoaded (start gallery)) 0 1).
  eexists. reflexivity.
Defined.

Lemma dispatch_cases (e : Event) (a : App) :
  dispatch e a = a ∨
  (wired a = true ∧ dispatch e a = mkApp (closeLightbox (doc a)) true) ∨
  ∃ img, img ∈ triggers (doc a) ∧ wired a = true ∧
         dispatch e a
         = mkApp (openLightbox (t_src img) (t_alt img) (doc a)) true.
Proof.
  unfold dispatch. destruct a as [d w]. simpl. destruct w; [|by left].
  destruct (listener_cases e d) as [-> | [-> | (img & Hin & ->)]].
  - by left.
  - right. by left.
  - right. right. by exists img.
Qed.

Lemma dispatch_frame (e : Event) (a : App) (c : string) :
  c ≠ is_open_class →
  overlay_has c (dispatch e a) = overlay_has c a ∧
  triggers (doc (dispatch e a)) = triggers (doc a) ∧
  closeBtn (doc (dispatch e a)) = closeBtn (doc a).
Proof.
  intros Hc.
  destruct (dispatch_cases e a) as [-> | [[_ ->] | (img & _ & _ & ->)]];
    [done | |]; (split; [|done]); unfold overlay_has; simpl;
    destruct (overlay (doc a)) as [cs|]; simpl; try done;
    apply bool_decide_ext.
  - rewrite elem_of_difference, elem_of_singleton. tauto.
  - rewrite elem_of_union, elem_of_singleton. tauto.
Qed.

(** X12.  The script touches the is-open class, the source and the alt
    only: whatever events arrive, every other class of the overlay is
    there exactly when it was before, and the thumbnails and the close
    control are what they were. *)
Theorem overlay_classes_kept (a : App) (es : list Event) (c : string) :
  c ≠ is_open_class →
  overlay_has c (run es a) = overlay_has c a ∧
  triggers (doc (run es a)) = triggers (doc a) ∧
  closeBtn (doc (run es a)) = closeBtn (doc a).
Proof.
  intros Hc. revert a. induction es as [|e es IH]; intros a; [done|].
  change (run (e :: es) a) with (run es (dispatch e a)).
  destruct (IH (dispatch e a)) as (-> & -> & ->).
  by apply dispatch_frame.
Qed.

Lemma overlay_classes_kept_witness :
  overlay_has "lightbox"
    (run [Click_trigger 0; Keydown "Escape"]
       (DOMContentLoaded (start gallery)))
  = overlay_has "lightbox" (DOMContentLoaded (start gallery)) ∧
  triggers (doc (run [Click_trigger 0; Keydown "Escape"]
                   (DOMContentLoaded (start gallery))))
  = triggers (doc (DOMContentLoaded (start gallery))) ∧
  closeBtn (doc (run [Click_trigger 0; Keydown "Escape"]
                   (DOMContentLoaded (start gallery))))
  = closeBtn (doc (DOMContentLoaded (start gallery))).
Proof.
  apply (overlay_classes_kept (DOMContentLoaded (start gallery))
           [Click_trigger 0; Keydown "Escape"] "lightbox").
  discriminate.
Defined.

Lemma dispatch_shows_thumbnail (d : Doc) (e : Event) (a : App) :
  shows_thumbnail d a → shows_thumbnail d (dispatch e a).
Proof.
  intros (Ht & Hw & Ho).
  destruct (dispatch_cases e a) as [-> | [[Hwa ->] | (img & Hin & Hwa & ->)]].
  - done.
  - destruct (Hw Hwa) as [[cs Hcs] [b Hb]].
    split; [done|]. split.
    + intros _. simpl. rewrite Hcs, Hb. simpl. eauto.
    + unfold overlay_open. simpl. rewrite Hcs. simpl. intros Hopen.
      apply bool_decide_eq_true_1 in Hopen.
      rewrite elem_of_difference, elem_of_singleton in Hopen. tauto.
  - destruct (Hw Hwa) as [[cs Hcs] [b Hb]].
    split; [done|]. split.
    + intros _. simpl. rewrite Hcs, Hb. simpl. eauto.
    + intros _. exists img. split; [by rewrite <- Ht|].
      simpl. by rewrite Hb.
Qed.

Lemma run_shows_thumbnail (d : Doc) (es : list Event) (a : App) :
  shows_thumbnail d a → shows_thumbnail d (run es a).
Proof.
  revert a. induction es as [|e es IH]; intros a Ha; [done|].
  change (run (e :: es) a) with (run es (dispatch e a)).
  by apply IH, dispatch_shows_thumbnail.
Qed.

(** X13.  On a page whose overlay starts closed, whenever the overlay is
    open after some events the enlarged image is one of the thumbnails:
    its source is that thumbnail's source and its alt that thumbnail's
    alt, or the empty string when the thumbnail has none. *)
Theorem open_shows_a_thumbnail (d : Doc) (es : list Event) :
  overlay_open (start d) = false →
  overlay_open (run es (DOMContentLoaded (start d))) = true →
  ∃ img, img ∈ triggers d ∧
         big_src (run es (DOMContentLoaded (start d))) = Some (t_src img) ∧
         big_alt (run es (DOMContentLoaded (start d)))
         = Some (default "" (t_alt img)).
Proof.
  intros Hclosed Hopen.
  assert (H0 : shows_thumbnail d (DOMContentLoaded (start d))).
  { destruct (listeners_guard d) as [Hdoc Hw].
    unfold shows_thumbnail, overlay_open in *. rewrite Hdoc. simpl in *.
    split; [done|]. split; [done|].
    intros Ho. by rewrite Ho in Hclosed. }
  destruct (run_shows_thumbnail d es _ H0) as (_ & _ & Hshow).
  destruct (Hshow Hopen) as (img & Hin & Hb).
  exists img. split; [done|]. unfold big_src, big_alt. rewrite Hb. simpl.
  by rewrite or_empty_default.
Qed.

Lemma open_shows_a_thumbnail_witness :
  ∃ img, img ∈ triggers gallery ∧
         big_src (run [Click_trigger 0; Click_trigger 1]
                    (DOMContentLoaded (start gallery))) = Some (t_src img) ∧
         big_alt (run [Click_trigger 0; Click_trigger 1]
                    (DOMContentLoaded (start gallery)))
         = Some (default "" (t_alt img)).
Proof.
  apply (open_shows_a_thumbnail gallery [Click_trigger 0; Click_trigger 1]);
    reflexivity.
Defined.

End LightboxFacts.
